(** * Active-response dispatch of analysisd: [OS_Exec] (src/analysisd/alerts/exec.c)

    A shallow embedding of [OS_Exec] and of the few libc routines it calls,
    followed by the properties of the dispatch: locality classification,
    ignore list, the two wire formats, the bound on the message size and the
    handling of a failed queue write.

    C strings are modelled by [string]: the characters before the
    terminating NUL.  A [char *] that points inside a string is the suffix
    that starts there; [NULL] is [None].  C [int]s are modelled by [Z]. *)

From Stdlib Require Import ZArith List String Ascii Bool Lia.
Import ListNotations.

Local Open Scope string_scope.

(** ** The libc routines used by exec.c *)

Module Libc.

(** [index(s, c)]: pointer to the first [c] in [s], [NULL] when there is none. *)
Fixpoint index (s : string) (c : ascii) : option string :=
  match s with
  | EmptyString => None
  | String a rest => if Ascii.eqb a c then Some s else index rest c
  end.

(** [rindex(s, c)]: pointer to the last [c] in [s], [NULL] when there is none. *)
Fixpoint rindex (s : string) (c : ascii) : option string :=
  match s with
  | EmptyString => None
  | String a rest =>
      match rindex rest c with
      | Some p => Some p
      | None => if Ascii.eqb a c then Some s else None
      end
  end.

(** [p++] on a [char *] that points at a character of a string. *)
Definition incr (p : string) : string :=
  match p with
  | EmptyString => EmptyString
  | String _ rest => rest
  end.

(** [strcmp]: zero on equal strings, otherwise the sign of the first
    difference. *)
Definition strcmp (a b : string) : Z :=
  match String.compare a b with
  | Eq => 0
  | Lt => -1
  | Gt => 1
  end.

(** The first [n] characters of [s]. *)
Fixpoint take (n : nat) (s : string) : string :=
  match n, s with
  | S m, String a rest => String a (take m rest)
  | _, _ => EmptyString
  end.

(** [snprintf(buf, size, fmt, ...)] where [out] is the fully formatted
    text: at most [size - 1] characters of [out] are stored, then the
    terminator.  With [size = 0] nothing is stored and [buf] keeps its
    former content. *)
Definition snprintf (buf : string) (size : nat) (out : string) : string :=
  match size with
  | O => buf
  | S room => take room out
  end.

(** The [%c] conversion: the [int] argument converted to [unsigned char].
    The character is NUL when [i] is 0 modulo 256; see [conv_c_then]. *)
Definition conv_c (i : Z) : string :=
  String (ascii_of_N (Z.to_N (i mod 256))) EmptyString.

(** The C string left by [%c] of [i] followed by the text [rest]: a NUL
    character stored by [%c] ends the string, and what the format stores
    after it is not part of the string. *)
Definition conv_c_then (i : Z) (rest : string) : string :=
  if (i mod 256 =? 0)%Z then EmptyString else conv_c i ++ rest.

End Libc.

Import Libc.

(** [c] occurs in the string [s]. *)
Definition occurs (c : ascii) (s : string) : Prop :=
  In c (list_ascii_of_string s).

(** ** Data: the fields of the structures that [OS_Exec] reads *)

(** [Eventinfo] (eventinfo.h). *)
Record Eventinfo : Type := mkEventinfo {
  lf_srcip : string;
  lf_location : string;
  lf_user : string
}.

(** [active_response] (active-response.h). *)
Record active_response : Type := mk_active_response {
  ar_location : Z;
  ar_name : string;
  ar_agent_id : string
}.

(** The global [Config] (config.h).  [ar_ignore] is a [char **]: either
    [NULL] or an array of strings closed by a [NULL] entry. *)
Record _Config : Type := mk_Config {
  ar_ignore : option (list string);
  local_ar : Z;
  remote_ar : Z
}.

(** ** Effects *)

(** What a call leaves behind: a record passed to [OS_SendUnix] on a socket
    (the characters [snprintf] stored in the buffer), or a line written by
    [merror]. *)
Inductive io_event : Type :=
| Sent (sock : Z) (msg : string)
| Logged (line : string).

(** A computation threads the chronological list of effects. *)
Definition IO (A : Type) : Type := list io_event -> A * list io_event.

Definition ret {A : Type} (a : A) : IO A := fun t => (a, t).

Definition bind {A B : Type} (m : IO A) (k : A -> IO B) : IO B :=
  fun t => let (a, t') := m t in k a t'.

Notation "x <- m ;; k" := (bind m (fun x => k))
  (at level 61, m at next level, right associativity).

Definition emit (e : io_event) : IO unit := fun t => (tt, (t ++ [e])%list).

Definition is_sent (e : io_event) : bool :=
  match e with Sent _ _ => true | Logged _ => false end.

(** The route of a trace: which sockets were written and which lines were
    logged, forgetting the content of the records. *)
Definition route_of (e : io_event) : Z + string :=
  match e with Sent sock _ => inl sock | Logged line => inr line end.

(** ** OS_Exec *)

Section Exec.

(** Constants of headers that exec.c includes (active-response.h,
    shared.h): the two location codes, the maximum string size and the
    program name used in log lines. *)
Variable AS_ONLY : Z.
Variable REMOTE_AGENT : Z.
Variable OS_MAXSTR : nat.
Variable ARGV0 : string.

(** The transport: the value [OS_SendUnix] returns for a record on a
    socket (negative on failure). *)
Variable transport : Z -> string -> Z.

(** The content of the stack buffer [exec_msg] at function entry. *)
Variable exec_msg0 : string.

Variable Config : _Config.

(** [OS_SendUnix(socket, msg, size)] (os_net): the record handed over is the
    content of the buffer; [size] is 0 at both calls. *)
Definition OS_SendUnix (sock : Z) (msg : string) (size : Z) : IO Z :=
  fun t => (transport sock msg, (t ++ [Sent sock msg])%list).

Definition merror (line : string) : IO unit := emit (Logged line).

(** Lines 41-50: cleaning the IP. *)
Definition clean_ip (srcip : string) : string :=
  match rindex srcip ":" with
  | Some ip => incr ip
  | None => srcip
  end.

(** Lines 57-66: the walk over the ignore array.  [Some i] when the
    [return] of line 63 fires at entry [i]; [None] when the walk reaches
    the closing [NULL]. *)
Fixpoint ignore_walk (entries : list string) (srcip : string) : option nat :=
  match entries with
  | [] => None
  | e :: rest =>
      if (strcmp e srcip =? 0)%Z then Some O
      else option_map S (ignore_walk rest srcip)
  end.

(** Lines 54-67. *)
Definition ip_ignored (lf : Eventinfo) : bool :=
  match ar_ignore Config with
  | Some entries =>
      match ignore_walk entries (lf_srcip lf) with
      | Some _ => true
      | None => false
      end
  | None => false
  end.

(** Lines 75-76: the test that selects the response on the server. *)
Definition on_server (lf : Eventinfo) (ar : active_response) : bool :=
  (ar_location ar =? AS_ONLY)%Z
  || ((ar_location ar =? REMOTE_AGENT)%Z
      && match index (lf_location lf) ">" with None => true | Some _ => false end).

(** Lines 81-85: the text of ["%s %s %s"]. *)
Definition local_format (lf : Eventinfo) (ar : active_response) (ip : string) : string :=
  ar_name ar ++ " " ++ lf_user lf ++ " " ++ ip.

(** Lines 96-103: the text of ["%s %c %s %s %s %s"], as the C string
    that [exec_msg] holds: it ends at the [%c] when that stores a NUL. *)
Definition forward_format (lf : Eventinfo) (ar : active_response) (ip : string) : string :=
  lf_location lf ++ " "
    ++ conv_c_then (ar_location ar)
         (" " ++ ar_agent_id ar ++ " " ++ ar_name ar ++ " " ++ lf_user lf ++ " " ++ ip).

(** Lines 78-90: the body of the first branch. *)
Definition local_response (execq : Z) (lf : Eventinfo) (ar : active_response)
    (ip : string) : IO unit :=
  if (local_ar Config =? 0)%Z then ret tt
  else
    let exec_msg := snprintf exec_msg0 OS_MAXSTR (local_format lf ar ip) in
    r <- OS_SendUnix execq exec_msg 0 ;;
    if (r <? 0)%Z then merror (ARGV0 ++ ": Error communicating with execd")
    else ret tt.

(** Lines 94-109: the [else if] branch. *)
Definition forward_response (arq : Z) (lf : Eventinfo) (ar : active_response)
    (ip : string) : IO unit :=
  if negb (remote_ar Config =? 0)%Z then
    let exec_msg := snprintf exec_msg0 OS_MAXSTR (forward_format lf ar ip) in
    r <- OS_SendUnix arq exec_msg 0 ;;
    if (r <? 0)%Z then merror (ARGV0 ++ ": Error communicating with arq")
    else ret tt
  else ret tt.

(** [void OS_Exec(int *execq, int *arq, Eventinfo *lf, active_response *ar)];
    [execq] and [arq] stand for the descriptors [*execq] and [*arq]. *)
Definition OS_Exec (execq arq : Z) (lf : Eventinfo) (ar : active_response) : IO unit :=
  let ip := clean_ip (lf_srcip lf) in
  if ip_ignored lf then ret tt
  else if on_server lf ar then local_response execq lf ar ip
  else forward_response arq lf ar ip.

End Exec.

(** ** Vocabulary of the statements *)

(** The classification in the words of the specification: the rule is for
    the server only, or it is for the remote agent and the location of the
    event holds no ['>']. *)
Definition isLocalExecution (AS_ONLY REMOTE_AGENT : Z)
    (lf : Eventinfo) (ar : active_response) : Prop :=
  ar_location ar = AS_ONLY
  \/ (ar_location ar = REMOTE_AGENT /\ ~ occurs ">" (lf_location lf)).

(** The three fields and the six fields, joined by single spaces. *)
Definition three_fields (name user ip : string) : string :=
  name ++ " " ++ user ++ " " ++ ip.

Definition six_fields (location code agent name user ip : string) : string :=
  location ++ " " ++ code ++ " " ++ agent ++ " " ++ name ++ " " ++ user ++ " " ++ ip.

(** The last character of a string is a space: its final field is empty. *)
Fixpoint ends_with_space (s : string) : bool :=
  match s with
  | EmptyString => false
  | String a EmptyString => Ascii.eqb a " "
  | String _ rest => ends_with_space rest
  end.

(** The entries of the ignore array; a [NULL] array has none. *)
Definition ignore_entries (cfg : _Config) : list string :=
  match ar_ignore cfg with
  | Some entries => entries
  | None => []
  end.

(** What is logged when a write returned [r]. *)
Definition failure_log (r : Z) (line : string) : list io_event :=
  if (r <? 0)%Z then [Logged line] else [].

(** A transport that answers [r] to every write. *)
Definition always (r : Z) : Z -> string -> Z := fun _ _ => r.

(** [n] copies of one character. *)
Fixpoint replicate (n : nat) (c : ascii) : string :=
  match n with
  | O => EmptyString
  | S m => String c (replicate m c)
  end.

(** Sample values, used to evaluate the statements on concrete inputs. *)
Module Sample.

Definition as_only : Z := 76.
Definition remote_agent : Z := 82.
Definition maxstr : nat := 1024.
Definition argv0 : string := "ossec-analysisd".
Definition execq : Z := 3.
Definition arq : Z := 4.

Definition config : _Config := mk_Config (Some ["127.0.0.1"; "192.168.2.1"]) 1 1.
Definition config_off : _Config := mk_Config None 0 0.

Definition lf_server : Eventinfo := mkEventinfo "::ffff:10.0.0.5" "/var/log/secure" "root".
Definition lf_agent : Eventinfo :=
  mkEventinfo "10.0.0.5" "(agent01) 192.168.2.7->/var/log/secure" "".
Definition lf_ignored : Eventinfo := mkEventinfo "192.168.2.1" "/var/log/secure" "root".
Definition lf_colon : Eventinfo := mkEventinfo "10.0.0.5:" "/var/log/secure" "root".

Definition ar_block : active_response := mk_active_response remote_agent "block-ip" "007".
Definition ar_server : active_response := mk_active_response as_only "block-ip" "007".

(** A rule whose location code is 0, and an event of the server itself. *)
Definition ar_nul : active_response := mk_active_response 0 "block-ip" "007".
Definition lf_plain : Eventinfo := mkEventinfo "10.0.0.5" "/var/log/secure" "root".

(** A rule for the server, respectively for the remote agent, whose name is
    [n] times the letter a. *)
Definition ar_server_long (n : nat) : active_response :=
  mk_active_response as_only (replicate n "a") "007".
Definition ar_block_long (n : nat) : active_response :=
  mk_active_response remote_agent (replicate n "a") "007".

(** [OS_Exec] with the sample constants, an empty buffer and the sample
    descriptors. *)
Definition run (size : nat) (transport : Z -> string -> Z) (cfg : _Config) :
    Eventinfo -> active_response -> IO unit :=
  OS_Exec as_only remote_agent size argv0 transport "" cfg execq arq.

End Sample.

(** ** Facts about the libc routines *)

Section LibcFacts.

Lemma occurs_cons (c a : ascii) (s : string) :
  occurs c (String a s) <-> a = c \/ occurs c s.
Proof. unfold occurs; simpl; tauto. Qed.

Lemma occurs_empty (c : ascii) : ~ occurs c "".
Proof. unfold occurs; simpl; tauto. Qed.

Lemma occurs_append (c : ascii) (s1 s2 : string) :
  occurs c (s1 ++ s2) <-> occurs c s1 \/ occurs c s2.
Proof.
  induction s1 as [|a s1 IH]; simpl.
  - pose proof (occurs_empty c); tauto.
  - rewrite !occurs_cons, IH; tauto.
Qed.

Lemma index_None_iff (s : string) (c : ascii) :
  index s c = None <-> ~ occurs c s.
Proof.
  induction s as [|a s IH]; simpl.
  - pose proof (occurs_empty c); tauto.
  - rewrite occurs_cons.
    destruct (Ascii.eqb_spec a c) as [E|N].
    + split; [discriminate | intros H; exfalso; apply H; now left].
    + rewrite IH; tauto.
Qed.

Lemma rindex_None_iff (s : string) (c : ascii) :
  rindex s c = None <-> ~ occurs c s.
Proof.
  induction s as [|a s IH]; simpl.
  - pose proof (occurs_empty c); tauto.
  - rewrite occurs_cons.
    destruct (rindex s c) as [p|].
    + split; [discriminate|].
      intros H; exfalso.
      assert (K : ~ occurs c s) by tauto.
      apply IH in K; discriminate.
    + destruct (Ascii.eqb_spec a c) as [E|N].
      * split; [discriminate | intros H; exfalso; apply H; now left].
      * assert (K : ~ occurs c s) by (apply IH; reflexivity).
        split; [tauto | reflexivity].
Qed.

(** [rindex] stops at the last occurrence: nothing after it holds [c]. *)
Lemma rindex_last (pre post : string) (c : ascii) :
  ~ occurs c post ->
  rindex (pre ++ String c post) c = Some (String c post).
Proof.
  intros Hpost.
  induction pre as [|a pre IH]; simpl.
  - apply rindex_None_iff in Hpost; rewrite Hpost.
    now rewrite Ascii.eqb_refl.
  - now rewrite IH.
Qed.

(** Conversely the result of [rindex] splits the string at its last [c]. *)
Lemma rindex_Some (s p : string) (c : ascii) :
  rindex s c = Some p ->
  exists pre post, s = pre ++ String c post /\ p = String c post /\ ~ occurs c post.
Proof.
  revert p; induction s as [|a s IH]; simpl; intros p H; [discriminate|].
  destruct (rindex s c) as [q|] eqn:E.
  - injection H as <-.
    destruct (IH q eq_refl) as (pre & post & -> & -> & Hn).
    exists (String a pre), post; auto.
  - destruct (Ascii.eqb_spec a c) as [->|N]; [|discriminate].
    injection H as <-.
    exists "", s; repeat split; auto.
    now apply rindex_None_iff.
Qed.

Lemma compare_refl (s : string) : String.compare s s = Eq.
Proof.
  induction s as [|a s IH]; simpl; [reflexivity|].
  unfold Ascii.compare; now rewrite N.compare_refl.
Qed.

Lemma strcmp_zero_iff (a b : string) : strcmp a b = 0%Z <-> a = b.
Proof.
  unfold strcmp; split.
  - destruct (String.compare a b) eqn:E; try discriminate.
    intros _; now apply String.compare_eq_iff.
  - intros ->; now rewrite compare_refl.
Qed.

Lemma take_length (n : nat) (s : string) :
  String.length (take n s) = Nat.min n (String.length s).
Proof.
  revert s; induction n as [|n IH]; intros [|a s]; simpl; auto.
Qed.

Lemma take_all (n : nat) (s : string) :
  String.length s <= n -> take n s = s.
Proof.
  revert s; induction n as [|n IH]; intros [|a s]; simpl; intros H;
    try reflexivity; try lia.
  f_equal; apply IH; lia.
Qed.

Lemma take_prefix (n : nat) (s : string) :
  exists rest, s = take n s ++ rest.
Proof.
  revert s; induction n as [|n IH]; intros s.
  - exists s; now destruct s.
  - destruct s as [|a s]; [now exists ""|].
    destruct (IH s) as [rest E]; exists rest; simpl; now rewrite <- E.
Qed.

Lemma append_length (s1 s2 : string) :
  String.length (s1 ++ s2) = String.length s1 + String.length s2.
Proof. induction s1 as [|a s1 IH]; simpl; auto. Qed.

(** A positive [size] bounds what [snprintf] stores, whatever was there. *)
Lemma snprintf_length (buf : string) (size : nat) (out : string) :
  0 < size -> String.length (snprintf buf size out) < size.
Proof.
  destruct size as [|room]; [lia|]; intros _; simpl.
  rewrite take_length; lia.
Qed.

Lemma snprintf_fits (buf : string) (size : nat) (out : string) :
  String.length out < size -> snprintf buf size out = out.
Proof.
  destruct size as [|room]; [lia|]; intros H; simpl.
  apply take_all; lia.
Qed.

Lemma snprintf_truncates (buf : string) (size : nat) (out : string) :
  0 < size ->
  snprintf buf size out = take (size - 1) out.
Proof.
  destruct size as [|room]; [lia|]; intros _; simpl.
  now rewrite Nat.sub_0_r.
Qed.

End LibcFacts.

(** ** Facts about the ignore walk, the log and the fields *)

Lemma ignore_walk_None_iff (entries : list string) (s : string) :
  ignore_walk entries s = None <-> ~ In s entries.
Proof.
  induction entries as [|e rest IH]; simpl; [tauto|].
  destruct (Z.eqb_spec (strcmp e s) 0) as [E|N].
  - apply strcmp_zero_iff in E.
    split; [discriminate | intros H; exfalso; apply H; now left].
  - assert (e <> s) by (intros ->; apply N; now apply strcmp_zero_iff).
    destruct (ignore_walk rest s); simpl.
    + split; [discriminate|]. intros H'; exfalso.
      assert (K : ~ In s rest) by tauto. apply IH in K; discriminate.
    + assert (~ In s rest) by (now apply IH). split; [tauto | reflexivity].
Qed.

(** The walk returns at the first entry equal to [s]. *)
Lemma ignore_walk_first (entries : list string) (s : string) (i : nat) :
  ignore_walk entries s = Some i ->
  nth_error entries i = Some s
  /\ forall j, j < i -> nth_error entries j <> Some s.
Proof.
  revert i; induction entries as [|e rest IH]; simpl; intros i H; [discriminate|].
  destruct (Z.eqb_spec (strcmp e s) 0) as [E|N].
  - injection H as <-. apply strcmp_zero_iff in E; subst e.
    split; [reflexivity | intros j Hj; lia].
  - destruct (ignore_walk rest s) as [k|]; simpl in H; [|discriminate].
    injection H as <-.
    destruct (IH k eq_refl) as [Hk Hbefore].
    split; [exact Hk|].
    intros [|j] Hj; simpl.
    + intros [= ->]. apply N; now apply strcmp_zero_iff.
    + apply Hbefore; lia.
Qed.

Lemma failure_log_no_write (r : Z) (line : string) :
  filter is_sent (failure_log r line) = [].
Proof. unfold failure_log; now destruct (r <? 0)%Z. Qed.

Lemma In_failure_log_sent (r : Z) (line : string) (sock : Z) (msg : string) :
  ~ In (Sent sock msg) (failure_log r line).
Proof.
  unfold failure_log; destruct (r <? 0)%Z; simpl; [|tauto].
  intros [H|[]]; discriminate.
Qed.

Lemma ends_with_space_snoc (x : string) : ends_with_space (x ++ " ") = true.
Proof.
  induction x as [|a x IH]; [reflexivity|].
  simpl. destruct x; simpl in *; auto.
Qed.

Lemma append_assoc_s (a b c : string) : (a ++ b) ++ c = a ++ b ++ c.
Proof. induction a as [|x a IH]; simpl; [reflexivity | now rewrite IH]. Qed.

Lemma three_fields_empty_ip (n u : string) :
  three_fields n u "" = (n ++ " " ++ u) ++ " ".
Proof. unfold three_fields. now rewrite !append_assoc_s. Qed.

Lemma six_fields_empty_ip (l c a n u : string) :
  six_fields l c a n u "" = (l ++ " " ++ c ++ " " ++ a ++ " " ++ n ++ " " ++ u) ++ " ".
Proof. unfold six_fields. now rewrite !append_assoc_s. Qed.

(** The forwarded text is the six fields unless [%c] stores a NUL; then it
    is the event location and the space that follows it. *)
Lemma forward_format_six lf ar ip :
  (ar_location ar mod 256 <> 0)%Z ->
  forward_format lf ar ip
  = six_fields (lf_location lf) (conv_c (ar_location ar)) (ar_agent_id ar)
      (ar_name ar) (lf_user lf) ip.
Proof.
  intros H. apply Z.eqb_neq in H.
  unfold forward_format, conv_c_then, six_fields. now rewrite H.
Qed.

Lemma forward_format_nul lf ar ip :
  (ar_location ar mod 256 = 0)%Z ->
  forward_format lf ar ip = lf_location lf ++ " ".
Proof.
  intros H. apply Z.eqb_eq in H.
  unfold forward_format, conv_c_then. now rewrite H.
Qed.

(** ** Facts about the pieces of [OS_Exec] *)

Section Dispatch.

Set Default Proof Using "Type".

Variable AS_ONLY : Z.
Variable REMOTE_AGENT : Z.
Variable OS_MAXSTR : nat.
Variable ARGV0 : string.
Variable transport : Z -> string -> Z.
Variable exec_msg0 : string.
Variable Config : _Config.

Local Abbreviation run :=
  (OS_Exec AS_ONLY REMOTE_AGENT OS_MAXSTR ARGV0 transport exec_msg0 Config).
Local Abbreviation is_local := (isLocalExecution AS_ONLY REMOTE_AGENT).
Local Abbreviation local_msg lf ar :=
  (snprintf exec_msg0 OS_MAXSTR (local_format lf ar (clean_ip (lf_srcip lf)))).
Local Abbreviation forward_msg lf ar :=
  (snprintf exec_msg0 OS_MAXSTR (forward_format lf ar (clean_ip (lf_srcip lf)))).
Local Abbreviation local_text lf ar :=
  (three_fields (ar_name ar) (lf_user lf) (clean_ip (lf_srcip lf))).
Local Abbreviation forward_text lf ar :=
  (six_fields (lf_location lf) (conv_c (ar_location ar)) (ar_agent_id ar)
     (ar_name ar) (lf_user lf) (clean_ip (lf_srcip lf))).
Local Abbreviation execd_line := (ARGV0 ++ ": Error communicating with execd").
Local Abbreviation arq_line := (ARGV0 ++ ": Error communicating with arq").

Lemma ip_ignored_iff (lf : Eventinfo) :
  ip_ignored Config lf = true <->
  exists entries, ar_ignore Config = Some entries /\ In (lf_srcip lf) entries.
Proof.
  unfold ip_ignored.
  destruct (ar_ignore Config) as [entries|].
  - destruct (ignore_walk entries (lf_srcip lf)) eqn:E.
    + split; [intros _ | reflexivity].
      exists entries; split; [reflexivity|].
      destruct (in_dec string_dec (lf_srcip lf) entries) as [I|NI]; [exact I|].
      apply ignore_walk_None_iff in NI; congruence.
    + apply ignore_walk_None_iff in E.
      split; [discriminate|]. intros (l & [= <-] & I); contradiction.
  - split; [discriminate|]. intros (l & H & _); discriminate.
Qed.

Lemma on_server_iff (lf : Eventinfo) (ar : active_response) :
  on_server AS_ONLY REMOTE_AGENT lf ar = true <-> is_local lf ar.
Proof.
  unfold on_server, isLocalExecution.
  rewrite orb_true_iff, andb_true_iff, !Z.eqb_eq, <- index_None_iff.
  destruct (index (lf_location lf) ">") as [p|].
  - split; (intros [H|[H K]]; [left; exact H | discriminate K]).
  - split; (intros [H|[H _]]; [left; exact H | right; split; [exact H | reflexivity]]).
Qed.

Lemma on_server_false_iff (lf : Eventinfo) (ar : active_response) :
  on_server AS_ONLY REMOTE_AGENT lf ar = false <-> ~ is_local lf ar.
Proof.
  rewrite <- on_server_iff.
  destruct (on_server AS_ONLY REMOTE_AGENT lf ar); split; congruence.
Qed.

(** The three ways through [OS_Exec]. *)
Lemma OS_Exec_ignored execq arq lf ar t :
  ip_ignored Config lf = true -> run execq arq lf ar t = (tt, t).
Proof. intros H; unfold OS_Exec; now rewrite H. Qed.

Lemma OS_Exec_local execq arq lf ar t :
  ip_ignored Config lf = false -> is_local lf ar ->
  run execq arq lf ar t =
  local_response OS_MAXSTR ARGV0 transport exec_msg0 Config execq lf ar
    (clean_ip (lf_srcip lf)) t.
Proof.
  intros H L; apply on_server_iff in L; unfold OS_Exec; now rewrite H, L.
Qed.

Lemma OS_Exec_forward execq arq lf ar t :
  ip_ignored Config lf = false -> ~ is_local lf ar ->
  run execq arq lf ar t =
  forward_response OS_MAXSTR ARGV0 transport exec_msg0 Config arq lf ar
    (clean_ip (lf_srcip lf)) t.
Proof.
  intros H L; apply on_server_false_iff in L; unfold OS_Exec; now rewrite H, L.
Qed.

Lemma local_response_off execq lf ar ip t :
  local_ar Config = 0%Z ->
  local_response OS_MAXSTR ARGV0 transport exec_msg0 Config execq lf ar ip t = (tt, t).
Proof. intros H; unfold local_response; now rewrite H. Qed.

Lemma local_response_on execq lf ar ip t :
  local_ar Config <> 0%Z ->
  local_response OS_MAXSTR ARGV0 transport exec_msg0 Config execq lf ar ip t =
  let msg := snprintf exec_msg0 OS_MAXSTR (local_format lf ar ip) in
  (tt, (t ++ Sent execq msg :: failure_log (transport execq msg) execd_line)%list).
Proof.
  intros H; apply Z.eqb_neq in H.
  unfold local_response, bind, OS_SendUnix, merror, emit, ret, failure_log.
  rewrite H; simpl.
  destruct (transport execq _ <? 0)%Z; simpl.
  - now rewrite <- app_assoc.
  - reflexivity.
Qed.

Lemma forward_response_off arq lf ar ip t :
  remote_ar Config = 0%Z ->
  forward_response OS_MAXSTR ARGV0 transport exec_msg0 Config arq lf ar ip t = (tt, t).
Proof. intros H; unfold forward_response; now rewrite H. Qed.

Lemma forward_response_on arq lf ar ip t :
  remote_ar Config <> 0%Z ->
  forward_response OS_MAXSTR ARGV0 transport exec_msg0 Config arq lf ar ip t =
  let msg := snprintf exec_msg0 OS_MAXSTR (forward_format lf ar ip) in
  (tt, (t ++ Sent arq msg :: failure_log (transport arq msg) arq_line)%list).
Proof.
  intros H; apply Z.eqb_neq in H.
  unfold forward_response, bind, OS_SendUnix, merror, emit, ret, failure_log.
  rewrite H; simpl.
  destruct (transport arq _ <? 0)%Z; simpl.
  - now rewrite <- app_assoc.
  - reflexivity.
Qed.

(** Every run is one of five traces. *)
Lemma OS_Exec_cases execq arq lf ar t :
  run execq arq lf ar t = (tt, t)
  \/ run execq arq lf ar t =
     (tt, (t ++ Sent execq (local_msg lf ar)
              :: failure_log (transport execq (local_msg lf ar)) execd_line)%list)
  \/ run execq arq lf ar t =
     (tt, (t ++ Sent arq (forward_msg lf ar)
              :: failure_log (transport arq (forward_msg lf ar)) arq_line)%list).
Proof.
  destruct (ip_ignored Config lf) eqn:I.
  - left; now apply OS_Exec_ignored.
  - destruct (on_server AS_ONLY REMOTE_AGENT lf ar) eqn:L.
    + apply on_server_iff in L. rewrite (OS_Exec_local _ _ _ _ _ I L).
      destruct (Z.eq_dec (local_ar Config) 0) as [E|N].
      * left; now apply local_response_off.
      * right; left; now apply local_response_on.
    + apply on_server_false_iff in L. rewrite (OS_Exec_forward _ _ _ _ _ I L).
      destruct (Z.eq_dec (remote_ar Config) 0) as [E|N].
      * left; now apply forward_response_off.
      * right; right; now apply forward_response_on.
Qed.


(** A record in the trace of a run from the empty trace tells which way the
    run went. *)
Lemma sent_of_run execq arq lf ar sock msg :
  In (Sent sock msg) (snd (run execq arq lf ar [])) ->
  ip_ignored Config lf = false
  /\ ((is_local lf ar /\ local_ar Config <> 0%Z
       /\ sock = execq /\ msg = local_msg lf ar)
      \/ (~ is_local lf ar /\ remote_ar Config <> 0%Z
          /\ sock = arq /\ msg = forward_msg lf ar)).
Proof.
  destruct (ip_ignored Config lf) eqn:I.
  - rewrite (OS_Exec_ignored _ _ _ _ _ I); simpl; tauto.
  - intros H; split; [reflexivity|].
    destruct (on_server AS_ONLY REMOTE_AGENT lf ar) eqn:L.
    + apply on_server_iff in L. rewrite (OS_Exec_local _ _ _ _ _ I L) in H.
      destruct (Z.eq_dec (local_ar Config) 0) as [E|N].
      * rewrite (local_response_off _ _ _ _ _ E) in H; simpl in H; tauto.
      * rewrite (local_response_on _ _ _ _ _ N) in H; simpl in H.
        destruct H as [[= <- <-]|H]; [left; auto|].
        now apply In_failure_log_sent in H.
    + apply on_server_false_iff in L. rewrite (OS_Exec_forward _ _ _ _ _ I L) in H.
      destruct (Z.eq_dec (remote_ar Config) 0) as [E|N].
      * rewrite (forward_response_off _ _ _ _ _ E) in H; simpl in H; tauto.
      * rewrite (forward_response_on _ _ _ _ _ N) in H; simpl in H.
        destruct H as [[= <- <-]|H]; [right; auto|].
        now apply In_failure_log_sent in H.
Qed.

(** ** The dispatch *)

(** C1. For every event and rule the test of lines 75-76 holds exactly when
    the location of the rule is [AS_ONLY], or it is [REMOTE_AGENT] and the
    location of the event holds no ['>'].  Once the ignore list has let the
    event through, the run takes the branch of the server (the local
    execution) when the test holds, and in every other case the branch of
    the forwarder.  Accordingly a record can only reach [execq] in the
    first case and [arq] in the second. *)
Theorem locality_dispatch execq arq lf ar t :
  (on_server AS_ONLY REMOTE_AGENT lf ar = true <-> is_local lf ar)
  /\ (ip_ignored Config lf = false ->
      (is_local lf ar ->
       run execq arq lf ar t =
       local_response OS_MAXSTR ARGV0 transport exec_msg0 Config execq lf ar
         (clean_ip (lf_srcip lf)) t)
      /\ (~ is_local lf ar ->
          run execq arq lf ar t =
          forward_response OS_MAXSTR ARGV0 transport exec_msg0 Config arq lf ar
            (clean_ip (lf_srcip lf)) t))
  /\ (forall sock msg, In (Sent sock msg) (snd (run execq arq lf ar [])) ->
      (is_local lf ar -> sock = execq) /\ (~ is_local lf ar -> sock = arq)).
Proof.
  split; [apply on_server_iff|]. split.
  - intros I; split; [now apply OS_Exec_local | now apply OS_Exec_forward].
  - intros sock msg H.
    destruct (sent_of_run _ _ _ _ _ _ H) as [_ [(L & _ & -> & _)|(L & _ & -> & _)]];
      split; intros L'; try reflexivity; contradiction.
Qed.

(** C2. When the source address of the event, as received, equals an entry
    of the ignore array, [OS_Exec] returns with the trace unchanged: no
    record on either queue, nothing logged.  The walk goes through the
    array in order and returns at the first entry equal to the address. *)
Theorem ignore_list_suppresses execq arq lf ar entries t :
  ar_ignore Config = Some entries ->
  In (lf_srcip lf) entries ->
  run execq arq lf ar t = (tt, t)
  /\ exists i,
       ignore_walk entries (lf_srcip lf) = Some i
       /\ nth_error entries i = Some (lf_srcip lf)
       /\ forall j, j < i -> nth_error entries j <> Some (lf_srcip lf).
Proof.
  intros Hcfg Hin; split.
  - apply OS_Exec_ignored, ip_ignored_iff; eauto.
  - destruct (ignore_walk entries (lf_srcip lf)) as [i|] eqn:E.
    + exists i; split; [reflexivity|]. now apply ignore_walk_first.
    + apply ignore_walk_None_iff in E; contradiction.
Qed.

(** C5. For an event that the ignore list lets through: when the execution
    is local and [local_ar] is zero, or the execution is forwarded and
    [remote_ar] is zero, [OS_Exec] returns with the trace unchanged: no
    record on either queue and no error line. *)
Theorem disabled_response_suppresses execq arq lf ar t :
  ip_ignored Config lf = false ->
  (is_local lf ar /\ local_ar Config = 0%Z)
  \/ (~ is_local lf ar /\ remote_ar Config = 0%Z) ->
  run execq arq lf ar t = (tt, t).
Proof.
  intros I [[L E]|[L E]].
  - rewrite (OS_Exec_local _ _ _ _ _ I L). now apply local_response_off.
  - rewrite (OS_Exec_forward _ _ _ _ _ I L). now apply forward_response_off.
Qed.

(** C7. One call of [OS_Exec] only appends to the trace, and what it appends
    holds at most one record written to a queue: never one on each queue,
    never two on the same. *)
Theorem at_most_one_write execq arq lf ar t :
  exists added,
    snd (run execq arq lf ar t) = (t ++ added)%list
    /\ List.length (filter is_sent added) <= 1.
Proof.
  destruct (OS_Exec_cases execq arq lf ar t) as [H|[H|H]]; rewrite H; simpl.
  - exists []; split; [now rewrite app_nil_r | simpl; lia].
  - eexists; split; [reflexivity|]. simpl. rewrite failure_log_no_write. simpl; lia.
  - eexists; split; [reflexivity|]. simpl. rewrite failure_log_no_write. simpl; lia.
Qed.


(** ** The two wire formats *)

(** C3. On the local path with [local_ar] set, exactly one record is
    written, on [execq]: the first [OS_MAXSTR - 1] characters of the rule
    name, the user and the cleaned address joined by single spaces.  It is
    the whole of that text whenever the text is shorter than [OS_MAXSTR];
    an empty user leaves an empty field, two adjacent spaces. *)
Theorem local_message execq arq lf ar t :
  0 < OS_MAXSTR ->
  ip_ignored Config lf = false ->
  is_local lf ar ->
  local_ar Config <> 0%Z ->
  run execq arq lf ar t =
    (tt, (t ++ Sent execq (take (OS_MAXSTR - 1) (local_text lf ar))
            :: failure_log
                 (transport execq (take (OS_MAXSTR - 1) (local_text lf ar)))
                 execd_line)%list)
  /\ (String.length (local_text lf ar) < OS_MAXSTR ->
      take (OS_MAXSTR - 1) (local_text lf ar) = local_text lf ar)
  /\ (lf_user lf = "" ->
      local_text lf ar = ar_name ar ++ "  " ++ clean_ip (lf_srcip lf)).
Proof.
  intros M I L E; split; [|split].
  - rewrite (OS_Exec_local _ _ _ _ _ I L), (local_response_on _ _ _ _ _ E).
    cbv zeta. now rewrite (snprintf_truncates _ _ _ M).
  - intros H; apply take_all; lia.
  - intros ->; reflexivity.
Qed.

(** C4. On the forward path with [remote_ar] set, exactly one record is
    written, on [arq].  When the location code of the rule is not 0
    modulo 256 it is the first [OS_MAXSTR - 1] characters of the event
    location, the location code as one character, the agent id, the rule
    name, the user and the cleaned address joined by single spaces: the
    whole of that text whenever the text is shorter than [OS_MAXSTR], an
    empty user leaving an empty field.  When the location code is 0
    modulo 256 the character stored by [%c] is NUL and ends the record:
    it is the first [OS_MAXSTR - 1] characters of the event location
    followed by one space. *)
Theorem forward_message execq arq lf ar t :
  0 < OS_MAXSTR ->
  ip_ignored Config lf = false ->
  ~ is_local lf ar ->
  remote_ar Config <> 0%Z ->
  ((ar_location ar mod 256 <> 0)%Z ->
   run execq arq lf ar t =
     (tt, (t ++ Sent arq (take (OS_MAXSTR - 1) (forward_text lf ar))
             :: failure_log
                  (transport arq (take (OS_MAXSTR - 1) (forward_text lf ar)))
                  arq_line)%list)
   /\ String.length (conv_c (ar_location ar)) = 1
   /\ (String.length (forward_text lf ar) < OS_MAXSTR ->
       take (OS_MAXSTR - 1) (forward_text lf ar) = forward_text lf ar)
   /\ (lf_user lf = "" ->
       forward_text lf ar =
       lf_location lf ++ " " ++ conv_c (ar_location ar) ++ " " ++ ar_agent_id ar
         ++ " " ++ ar_name ar ++ "  " ++ clean_ip (lf_srcip lf)))
  /\ ((ar_location ar mod 256 = 0)%Z ->
      run execq arq lf ar t =
        (tt, (t ++ Sent arq (take (OS_MAXSTR - 1) (lf_location lf ++ " "))
                :: failure_log
                     (transport arq (take (OS_MAXSTR - 1) (lf_location lf ++ " ")))
                     arq_line)%list)).
Proof.
  intros M I L E.
  assert (R : run execq arq lf ar t =
    (tt, (t ++ Sent arq (take (OS_MAXSTR - 1)
                           (forward_format lf ar (clean_ip (lf_srcip lf))))
            :: failure_log
                 (transport arq (take (OS_MAXSTR - 1)
                                   (forward_format lf ar (clean_ip (lf_srcip lf)))))
                 arq_line)%list)).
  { rewrite (OS_Exec_forward _ _ _ _ _ I L), (forward_response_on _ _ _ _ _ E).
    cbv zeta. now rewrite (snprintf_truncates _ _ _ M). }
  split; intros C.
  - rewrite (forward_format_six _ _ _ C) in R.
    split; [exact R|]. split; [reflexivity|]. split.
    + intros H; apply take_all; lia.
    + intros ->; reflexivity.
  - now rewrite (forward_format_nul _ _ _ C) in R.
Qed.

(** C6. A failed write is not returned to the caller: [OS_Exec] is [void]
    and returns normally.  On the local path the failure is logged once by
    [merror] with the line of execd, on the forward path with the line of
    arq; the write is not tried again.  After a successful write the trace
    holds the one record and no error line. *)
Theorem write_failure_is_logged execq arq lf ar t :
  ip_ignored Config lf = false ->
  (is_local lf ar -> local_ar Config <> 0%Z ->
   ((transport execq (local_msg lf ar) < 0)%Z ->
    run execq arq lf ar t =
      (tt, (t ++ [Sent execq (local_msg lf ar); Logged execd_line])%list))
   /\ ((0 <= transport execq (local_msg lf ar))%Z ->
       run execq arq lf ar t = (tt, (t ++ [Sent execq (local_msg lf ar)])%list)))
  /\ (~ is_local lf ar -> remote_ar Config <> 0%Z ->
      ((transport arq (forward_msg lf ar) < 0)%Z ->
       run execq arq lf ar t =
         (tt, (t ++ [Sent arq (forward_msg lf ar); Logged arq_line])%list))
      /\ ((0 <= transport arq (forward_msg lf ar))%Z ->
          run execq arq lf ar t = (tt, (t ++ [Sent arq (forward_msg lf ar)])%list))).
Proof.
  intros I; split; intros L E.
  - rewrite (OS_Exec_local _ _ _ _ _ I L), (local_response_on _ _ _ _ _ E).
    cbv zeta; unfold failure_log; split; intros H.
    + apply Z.ltb_lt in H; now rewrite H.
    + apply Z.ltb_ge in H; now rewrite H.
  - rewrite (OS_Exec_forward _ _ _ _ _ I L), (forward_response_on _ _ _ _ _ E).
    cbv zeta; unfold failure_log; split; intros H.
    + apply Z.ltb_lt in H; now rewrite H.
    + apply Z.ltb_ge in H; now rewrite H.
Qed.

(** ** Cleaning the address *)

(** C8. The cleaned address is what follows the last [':'] of the source
    address when there is one, and the whole source address otherwise.  So
    ["10.0.0.5"] is kept, ["::ffff:10.0.0.5:4000"] is split at its last
    colon only, and ["10.0.0.5:4000"] becomes ["4000"]. *)
Theorem clean_ip_after_last_colon (s : string) :
  (occurs ":" s ->
   exists pre, s = pre ++ ":" ++ clean_ip s /\ ~ occurs ":" (clean_ip s))
  /\ (forall pre post, s = pre ++ ":" ++ post -> ~ occurs ":" post ->
      clean_ip s = post)
  /\ (~ occurs ":" s -> clean_ip s = s)
  /\ clean_ip "10.0.0.5" = "10.0.0.5"
  /\ clean_ip "::ffff:10.0.0.5:4000" = "4000"
  /\ clean_ip "10.0.0.5:4000" = "4000".
Proof.
  split; [|split; [|split; [|repeat split]]].
  - intros H. unfold clean_ip.
    destruct (rindex s ":") as [p|] eqn:E.
    + destruct (rindex_Some _ _ _ E) as (pre & post & -> & -> & Hn).
      exists pre; simpl; auto.
    + apply rindex_None_iff in E; contradiction.
  - intros pre post -> Hn. unfold clean_ip. simpl (":" ++ post).
    now rewrite (rindex_last pre post ":" Hn).
  - intros H. unfold clean_ip. apply rindex_None_iff in H. now rewrite H.
Qed.

(** C10. A source address that ends with [':'] is cleaned to the empty
    string; cleaning is a total function, it rejects nothing.  Every record
    then written is the first [OS_MAXSTR - 1] characters of a text that
    ends with the separating space: the three fields, or the six fields
    when the location code is not 0 modulo 256, with an empty final field,
    or, when the location code is 0 modulo 256, the event location and
    the space after it.  The record ends with that space whenever the
    text is shorter than [OS_MAXSTR]. *)
Theorem trailing_colon_cleans_to_empty execq arq lf ar pre :
  0 < OS_MAXSTR ->
  lf_srcip lf = pre ++ ":" ->
  clean_ip (lf_srcip lf) = ""
  /\ forall sock msg, In (Sent sock msg) (snd (run execq arq lf ar [])) ->
     exists text,
       (text = three_fields (ar_name ar) (lf_user lf) ""
        \/ ((ar_location ar mod 256 <> 0)%Z
            /\ text = six_fields (lf_location lf) (conv_c (ar_location ar))
                        (ar_agent_id ar) (ar_name ar) (lf_user lf) "")
        \/ ((ar_location ar mod 256 = 0)%Z /\ text = lf_location lf ++ " "))
       /\ msg = take (OS_MAXSTR - 1) text
       /\ ends_with_space text = true
       /\ (String.length text < OS_MAXSTR -> ends_with_space msg = true).
Proof.
  intros M E.
  assert (C : clean_ip (lf_srcip lf) = "").
  { rewrite E. unfold clean_ip.
    now rewrite (rindex_last pre "" ":" (occurs_empty ":")). }
  split; [exact C|].
  intros sock msg H.
  destruct (sent_of_run _ _ _ _ _ _ H) as [_ [(_ & _ & _ & ->)|(_ & _ & _ & ->)]];
    rewrite C, (snprintf_truncates _ _ _ M).
  - exists (three_fields (ar_name ar) (lf_user lf) "").
    split; [now left|]. split; [reflexivity|].
    change (local_format lf ar "") with (three_fields (ar_name ar) (lf_user lf) "").
    rewrite three_fields_empty_ip.
    split; [apply ends_with_space_snoc|].
    intros Hlen. rewrite take_all by lia. apply ends_with_space_snoc.
  - destruct (Z.eq_dec (ar_location ar mod 256) 0) as [Z0|NZ].
    + exists (lf_location lf ++ " ").
      split; [right; right; now split|].
      rewrite (forward_format_nul _ _ _ Z0).
      split; [reflexivity|].
      split; [apply ends_with_space_snoc|].
      intros Hlen. rewrite take_all by lia. apply ends_with_space_snoc.
    + exists (six_fields (lf_location lf) (conv_c (ar_location ar))
                (ar_agent_id ar) (ar_name ar) (lf_user lf) "").
      split; [right; left; now split|].
      rewrite (forward_format_six _ _ _ NZ).
      split; [reflexivity|].
      rewrite six_fields_empty_ip.
      split; [apply ends_with_space_snoc|].
      intros Hlen. rewrite take_all by lia. apply ends_with_space_snoc.
Qed.

End Dispatch.

(** ** The size of the records *)

Section Bound.

Set Default Proof Using "Type".

Variable AS_ONLY : Z.
Variable REMOTE_AGENT : Z.
Variable ARGV0 : string.
Variable Config : _Config.

(** With a transport whose answer does not depend on the content of the
    record, neither the size given to [snprintf] nor the former content of
    the buffer changes which queue is written or what is logged. *)
Lemma route_independent_of_size (size1 size2 : nat) (buf1 buf2 : string)
    (transport : Z -> string -> Z) execq arq lf ar :
  (forall sock m m', transport sock m = transport sock m') ->
  map route_of
    (snd (OS_Exec AS_ONLY REMOTE_AGENT size1 ARGV0 transport buf1 Config
            execq arq lf ar []))
  = map route_of
      (snd (OS_Exec AS_ONLY REMOTE_AGENT size2 ARGV0 transport buf2 Config
              execq arq lf ar [])).
Proof.
  intros Blind.
  unfold OS_Exec, local_response, forward_response, bind, OS_SendUnix, merror,
    emit, ret.
  destruct (ip_ignored Config lf); [reflexivity|].
  destruct (on_server AS_ONLY REMOTE_AGENT lf ar).
  - destruct (local_ar Config =? 0)%Z; [reflexivity|]. simpl.
    rewrite (Blind execq _ (snprintf buf2 size2
               (local_format lf ar (clean_ip (lf_srcip lf))))).
    destruct (transport execq _ <? 0)%Z; reflexivity.
  - destruct (remote_ar Config =? 0)%Z; [reflexivity|]. simpl.
    rewrite (Blind arq _ (snprintf buf2 size2
               (forward_format lf ar (clean_ip (lf_srcip lf))))).
    destruct (transport arq _ <? 0)%Z; reflexivity.
Qed.

(** C9. Whatever the fields hold, a record written by [OS_Exec] is shorter
    than [OS_MAXSTR]: it is the formatted text cut after [OS_MAXSTR - 1]
    characters, a prefix of that text fixed by the inputs.  The cut changes
    neither the queue that is written nor what is logged: with a transport
    that does not look at the content, the route is the same for every
    size, and the call returns normally. *)
Theorem message_size_bound (OS_MAXSTR : nat) (transport : Z -> string -> Z)
    (exec_msg0 : string) execq arq lf ar :
  0 < OS_MAXSTR ->
  (forall sock msg,
     In (Sent sock msg)
        (snd (OS_Exec AS_ONLY REMOTE_AGENT OS_MAXSTR ARGV0 transport exec_msg0
                Config execq arq lf ar [])) ->
     String.length msg < OS_MAXSTR
     /\ exists text cut,
          (text = local_format lf ar (clean_ip (lf_srcip lf))
           \/ text = forward_format lf ar (clean_ip (lf_srcip lf)))
          /\ msg = take (OS_MAXSTR - 1) text
          /\ text = msg ++ cut)
  /\ (forall size buf,
        (forall sock m m', transport sock m = transport sock m') ->
        map route_of
          (snd (OS_Exec AS_ONLY REMOTE_AGENT OS_MAXSTR ARGV0 transport exec_msg0
                  Config execq arq lf ar []))
        = map route_of
            (snd (OS_Exec AS_ONLY REMOTE_AGENT size ARGV0 transport buf
                    Config execq arq lf ar [])))
  /\ fst (OS_Exec AS_ONLY REMOTE_AGENT OS_MAXSTR ARGV0 transport exec_msg0
            Config execq arq lf ar []) = tt.
Proof.
  intros M; split; [|split].
  - intros sock msg H.
    destruct (sent_of_run _ _ _ _ _ _ _ _ _ _ _ _ _ H)
      as [_ [(_ & _ & _ & ->)|(_ & _ & _ & ->)]].
    + split; [now apply snprintf_length|].
      rewrite (snprintf_truncates _ _ _ M).
      destruct (take_prefix (OS_MAXSTR - 1)
                  (local_format lf ar (clean_ip (lf_srcip lf)))) as [cut E].
      eexists _, cut; split; [left; reflexivity|]. split; [reflexivity | exact E].
    + split; [now apply snprintf_length|].
      rewrite (snprintf_truncates _ _ _ M).
      destruct (take_prefix (OS_MAXSTR - 1)
                  (forward_format lf ar (clean_ip (lf_srcip lf)))) as [cut E].
      eexists _, cut; split; [right; reflexivity|]. split; [reflexivity | exact E].
  - intros size buf Blind. now apply route_independent_of_size.
  - now destruct (fst _).
Qed.

End Bound.

(** ** The statements on concrete inputs *)

Lemma replicate_length (n : nat) (c : ascii) : String.length (replicate n c) = n.
Proof. induction n as [|n IH]; simpl; auto. Qed.

Lemma take_replicate (n k : nat) (c : ascii) (rest : string) :
  take n (replicate (n + k) c ++ rest) = replicate n c.
Proof. induction n as [|n IH]; simpl; [reflexivity | now rewrite IH]. Qed.

Lemma ends_with_space_replicate_a (n : nat) :
  ends_with_space (replicate n "a") = false.
Proof.
  induction n as [|n IH]; [reflexivity|].
  simpl. destruct n; [reflexivity | exact IH].
Qed.

(** The run of a long rule on the server, and to the forwarder. *)
Lemma run_server_long (size : nat) (lf : Eventinfo) :
  0 < size ->
  ip_ignored Sample.config lf = false ->
  snd (Sample.run size (always 0) Sample.config lf (Sample.ar_server_long size) [])
  = [Sent Sample.execq
       (take (size - 1)
          (three_fields (replicate size "a") (lf_user lf) (clean_ip (lf_srcip lf))))].
Proof.
  intros M I. unfold Sample.run.
  rewrite OS_Exec_local; [| exact I | left; reflexivity].
  rewrite local_response_on by discriminate.
  cbv zeta. now rewrite (snprintf_truncates _ _ _ M).
Qed.

Lemma run_forward_long (size : nat) :
  0 < size ->
  snd (Sample.run size (always 0) Sample.config Sample.lf_agent
         (Sample.ar_block_long size) [])
  = [Sent Sample.arq
       (take (size - 1)
          (six_fields (lf_location Sample.lf_agent) "R" "007" (replicate size "a")
             "" "10.0.0.5"))].
Proof.
  intros M. unfold Sample.run.
  rewrite OS_Exec_forward;
    [| reflexivity | apply on_server_false_iff; reflexivity].
  rewrite forward_response_on by discriminate.
  cbv zeta. now rewrite (snprintf_truncates _ _ _ M).
Qed.

(** At the sample size 1024 the record of a rule whose name is 1024 letters
    long is 1023 letters: neither the user nor the address is left. *)
Example long_rule_name_is_cut :
  snd (Sample.run Sample.maxstr (always 0) Sample.config Sample.lf_server
         (Sample.ar_server_long Sample.maxstr) [])
  = [Sent Sample.execq (replicate 1023 "a")].
Proof.
  rewrite run_server_long; [| unfold Sample.maxstr; lia | reflexivity].
  reflexivity.
Qed.

(** The ignore list is compared with the address as received, not with the
    cleaned one: an entry equal to the cleaned address lets the event
    through. *)
Example ignore_list_compares_raw_address :
  Sample.run Sample.maxstr (always 0) (mk_Config (Some ["10.0.0.5"]) 1 1)
    Sample.lf_server Sample.ar_server []
  = (tt, [Sent Sample.execq "block-ip root 10.0.0.5"]).
Proof. reflexivity. Qed.

Lemma locality_dispatch_witness :
  ip_ignored Sample.config Sample.lf_agent = false
  /\ ~ isLocalExecution Sample.as_only Sample.remote_agent Sample.lf_agent
        Sample.ar_block
  /\ Sample.run Sample.maxstr (always 0) Sample.config Sample.lf_agent
       Sample.ar_block []
     = forward_response Sample.maxstr Sample.argv0 (always 0) "" Sample.config
         Sample.arq Sample.lf_agent Sample.ar_block "10.0.0.5" [].
Proof.
  assert (I : ip_ignored Sample.config Sample.lf_agent = false) by reflexivity.
  assert (L : ~ isLocalExecution Sample.as_only Sample.remote_agent
                Sample.lf_agent Sample.ar_block)
    by (apply on_server_false_iff; reflexivity).
  split; [exact I|]. split; [exact L|].
  destruct (locality_dispatch Sample.as_only Sample.remote_agent Sample.maxstr
              Sample.argv0 (always 0) "" Sample.config Sample.execq Sample.arq
              Sample.lf_agent Sample.ar_block []) as (_ & K & _).
  exact (proj2 (K I) L).
Defined.

Lemma ignore_list_suppresses_witness :
  In "192.168.2.1" ["127.0.0.1"; "192.168.2.1"]
  /\ Sample.run Sample.maxstr (always 0) Sample.config Sample.lf_ignored
       Sample.ar_server [] = (tt, []).
Proof.
  assert (I : In "192.168.2.1" ["127.0.0.1"; "192.168.2.1"])
    by (right; left; reflexivity).
  split; [exact I|].
  exact (proj1 (ignore_list_suppresses Sample.as_only Sample.remote_agent
                  Sample.maxstr Sample.argv0 (always 0) "" Sample.config
                  Sample.execq Sample.arq Sample.lf_ignored Sample.ar_server
                  ["127.0.0.1"; "192.168.2.1"] [] eq_refl I)).
Defined.

Lemma disabled_response_suppresses_witness :
  local_ar Sample.config_off = 0%Z
  /\ Sample.run Sample.maxstr (always 0) Sample.config_off Sample.lf_server
       Sample.ar_server [] = (tt, []).
Proof.
  split; [reflexivity|].
  apply (disabled_response_suppresses Sample.as_only Sample.remote_agent
           Sample.maxstr Sample.argv0 (always 0) "" Sample.config_off
           Sample.execq Sample.arq Sample.lf_server Sample.ar_server []).
  - reflexivity.
  - left; split; [left; reflexivity | reflexivity].
Defined.

Lemma local_message_witness :
  0 < Sample.maxstr
  /\ Sample.run Sample.maxstr (always 0) Sample.config Sample.lf_server
       Sample.ar_server []
     = (tt, [Sent Sample.execq "block-ip root 10.0.0.5"]).
Proof.
  assert (M : 0 < Sample.maxstr) by (unfold Sample.maxstr; lia).
  split; [exact M|].
  refine (proj1 (local_message Sample.as_only Sample.remote_agent Sample.maxstr
                   Sample.argv0 (always 0) "" Sample.config Sample.execq
                   Sample.arq Sample.lf_server Sample.ar_server [] M eq_refl _ _)).
  - left; reflexivity.
  - discriminate.
Defined.

Lemma forward_message_witness :
  0 < Sample.maxstr
  /\ (ar_location Sample.ar_block mod 256 <> 0)%Z
  /\ Sample.run Sample.maxstr (always 0) Sample.config Sample.lf_agent
       Sample.ar_block []
     = (tt, [Sent Sample.arq
               "(agent01) 192.168.2.7->/var/log/secure R 007 block-ip  10.0.0.5"])
  /\ (ar_location Sample.ar_nul mod 256 = 0)%Z
  /\ Sample.run Sample.maxstr (always 0) Sample.config Sample.lf_plain
       Sample.ar_nul []
     = (tt, [Sent Sample.arq "/var/log/secure "]).
Proof.
  assert (M : 0 < Sample.maxstr) by (unfold Sample.maxstr; lia).
  assert (C : (ar_location Sample.ar_block mod 256 <> 0)%Z) by discriminate.
  assert (L : ~ isLocalExecution Sample.as_only Sample.remote_agent
                Sample.lf_agent Sample.ar_block)
    by (apply on_server_false_iff; reflexivity).
  assert (L0 : ~ isLocalExecution Sample.as_only Sample.remote_agent
                 Sample.lf_plain Sample.ar_nul)
    by (apply on_server_false_iff; reflexivity).
  assert (E : remote_ar Sample.config <> 0%Z) by discriminate.
  split; [exact M|]. split; [exact C|]. split; [|split; [reflexivity|]].
  - exact (proj1 (proj1 (forward_message Sample.as_only Sample.remote_agent
                           Sample.maxstr Sample.argv0 (always 0) "" Sample.config
                           Sample.execq Sample.arq Sample.lf_agent
                           Sample.ar_block [] M eq_refl L E) C)).
  - exact (proj2 (forward_message Sample.as_only Sample.remote_agent
                    Sample.maxstr Sample.argv0 (always 0) "" Sample.config
                    Sample.execq Sample.arq Sample.lf_plain Sample.ar_nul []
                    M eq_refl L0 E) eq_refl).
Defined.

Lemma write_failure_is_logged_witness :
  (always (-1) Sample.execq "block-ip root 10.0.0.5" < 0)%Z
  /\ Sample.run Sample.maxstr (always (-1)) Sample.config Sample.lf_server
       Sample.ar_server []
     = (tt, [Sent Sample.execq "block-ip root 10.0.0.5";
             Logged "ossec-analysisd: Error communicating with execd"]).
Proof.
  split; [reflexivity|].
  destruct (write_failure_is_logged Sample.as_only Sample.remote_agent
              Sample.maxstr Sample.argv0 (always (-1)) "" Sample.config
              Sample.execq Sample.arq Sample.lf_server Sample.ar_server []
              eq_refl) as [L _].
  destruct L as [F _]; [left; reflexivity | discriminate |].
  apply F. reflexivity.
Defined.

Lemma clean_ip_after_last_colon_witness :
  ~ occurs ":" "4000" /\ clean_ip "::ffff:10.0.0.5:4000" = "4000".
Proof.
  assert (N : ~ occurs ":" "4000") by (apply index_None_iff; reflexivity).
  split; [exact N|].
  destruct (clean_ip_after_last_colon "::ffff:10.0.0.5:4000") as (_ & K & _).
  exact (K "::ffff:10.0.0.5" "4000" eq_refl N).
Defined.

Lemma message_size_bound_witness :
  0 < Sample.maxstr
  /\ String.length
       "(agent01) 192.168.2.7->/var/log/secure R 007 block-ip  10.0.0.5"
     < Sample.maxstr.
Proof.
  assert (M : 0 < Sample.maxstr) by (unfold Sample.maxstr; lia).
  split; [exact M|].
  destruct (message_size_bound Sample.as_only Sample.remote_agent Sample.argv0
              Sample.config Sample.maxstr (always 0) "" Sample.execq Sample.arq
              Sample.lf_agent Sample.ar_block M) as [K _].
  refine (proj1 (K Sample.arq _ _)).
  left; reflexivity.
Defined.

Lemma trailing_colon_cleans_to_empty_witness :
  lf_srcip Sample.lf_colon = "10.0.0.5" ++ ":"
  /\ clean_ip (lf_srcip Sample.lf_colon) = "".
Proof.
  split; [reflexivity|].
  assert (M : 0 < Sample.maxstr) by (unfold Sample.maxstr; lia).
  exact (proj1 (trailing_colon_cleans_to_empty Sample.as_only Sample.remote_agent
                  Sample.maxstr Sample.argv0 (always 0) "" Sample.config
                  Sample.execq Sample.arq Sample.lf_colon Sample.ar_server
                  "10.0.0.5" M eq_refl)).
Defined.

(** ** Where the specification and the code part *)

(** C3 does not hold as the specification words it.  Whatever positive
    value [OS_MAXSTR] has, a rule for the server whose name is [OS_MAXSTR]
    letters long, met by the event of user root from [::ffff:10.0.0.5],
    has a record of [OS_MAXSTR - 1] characters written on [execq]: less
    than the three fields joined by spaces. *)
Lemma local_message_cut_at_any_size :
  ~ exists size, 0 < size /\
      forall lf ar,
        ip_ignored Sample.config lf = false ->
        isLocalExecution Sample.as_only Sample.remote_agent lf ar ->
        snd (Sample.run size (always 0) Sample.config lf ar [])
        = [Sent Sample.execq
             (three_fields (ar_name ar) (lf_user lf) (clean_ip (lf_srcip lf)))].
Proof.
  intros (size & M & H).
  specialize (H Sample.lf_server (Sample.ar_server_long size) eq_refl
                (or_introl eq_refl)).
  rewrite (run_server_long size Sample.lf_server M eq_refl) in H.
  injection H as H. apply (f_equal String.length) in H.
  rewrite take_length in H. unfold three_fields in H. simpl ar_name in H.
  rewrite append_length, replicate_length in H. lia.
Qed.

(** C4 does not hold as the specification words it.  Whatever positive
    value [OS_MAXSTR] has, a rule for the remote agent whose name is
    [OS_MAXSTR] letters long, met by an event relayed by agent01, has a
    record of [OS_MAXSTR - 1] characters written on [arq]: less than the
    six fields joined by spaces. *)
Lemma forward_message_cut_at_any_size :
  ~ exists size, 0 < size /\
      forall lf ar,
        ip_ignored Sample.config lf = false ->
        ~ isLocalExecution Sample.as_only Sample.remote_agent lf ar ->
        snd (Sample.run size (always 0) Sample.config lf ar [])
        = [Sent Sample.arq
             (six_fields (lf_location lf) (conv_c (ar_location ar))
                (ar_agent_id ar) (ar_name ar) (lf_user lf)
                (clean_ip (lf_srcip lf)))].
Proof.
  intros (size & M & H).
  assert (L : ~ isLocalExecution Sample.as_only Sample.remote_agent
                Sample.lf_agent (Sample.ar_block_long size))
    by (apply on_server_false_iff; reflexivity).
  specialize (H Sample.lf_agent (Sample.ar_block_long size) eq_refl L).
  rewrite (run_forward_long size M) in H.
  injection H as H. apply (f_equal String.length) in H.
  rewrite take_length in H. unfold six_fields in H.
  simpl ar_name in H.
  rewrite !append_length, replicate_length in H. simpl in H. lia.
Qed.

(** C6 does not hold as the specification words it.  With a transport that
    fails and with one that succeeds, the caller of [OS_Exec] receives the
    same value: the function is [void].  The failure shows in the log
    only. *)
Lemma write_failure_not_returned :
  fst (Sample.run Sample.maxstr (always (-1)) Sample.config Sample.lf_server
         Sample.ar_server [])
  = fst (Sample.run Sample.maxstr (always 0) Sample.config Sample.lf_server
           Sample.ar_server [])
  /\ snd (Sample.run Sample.maxstr (always (-1)) Sample.config Sample.lf_server
            Sample.ar_server [])
     = [Sent Sample.execq "block-ip root 10.0.0.5";
        Logged "ossec-analysisd: Error communicating with execd"]
  /\ snd (Sample.run Sample.maxstr (always 0) Sample.config Sample.lf_server
            Sample.ar_server [])
     = [Sent Sample.execq "block-ip root 10.0.0.5"].
Proof. repeat split. Qed.

(** C8 does not hold as the specification words it: the port that follows
    the colon of ["10.0.0.5:4000"] is what cleaning keeps, not the
    address before it. *)
Lemma clean_ip_keeps_what_follows_the_colon :
  clean_ip "10.0.0.5:4000" <> "10.0.0.5".
Proof. discriminate. Qed.

(** C10 does not hold as the specification words it for the records that
    are cut.  Whatever positive value [OS_MAXSTR] has, the event from
    ["10.0.0.5:"] met by a rule for the server whose name is [OS_MAXSTR]
    letters long has a record written that is all letters: it does not
    end with the space that closes an empty final field. *)
Lemma cut_record_has_no_empty_final_field :
  ~ exists size, 0 < size /\
      forall lf ar pre,
        lf_srcip lf = pre ++ ":" ->
        forall sock msg,
          In (Sent sock msg) (snd (Sample.run size (always 0) Sample.config lf ar [])) ->
          ends_with_space msg = true.
Proof.
  intros (size & M & H).
  assert (K : ends_with_space (replicate (size - 1) "a") = true).
  { apply (H Sample.lf_colon (Sample.ar_server_long size) "10.0.0.5" eq_refl
             Sample.execq).
    rewrite (run_server_long size Sample.lf_colon M eq_refl).
    left. f_equal. unfold three_fields.
    replace size with ((size - 1) + 1) at 2 by lia.
    apply take_replicate. }
  rewrite ends_with_space_replicate_a in K. discriminate K.
Qed.

(** ** Further properties of [OS_Exec] *)

Lemma clean_ip_no_colon_id (s : string) : ~ occurs ":" s -> clean_ip s = s.
Proof.
  intros H. unfold clean_ip. apply rindex_None_iff in H. now rewrite H.
Qed.

Lemma clean_ip_split (s : string) :
  occurs ":" s ->
  exists pre, s = pre ++ String ":" (clean_ip s) /\ ~ occurs ":" (clean_ip s).
Proof.
  intros H. unfold clean_ip.
  destruct (rindex s ":") as [p|] eqn:E.
  - destruct (rindex_Some _ _ _ E) as (pre & post & -> & -> & Hn).
    exists pre; simpl; auto.
  - apply rindex_None_iff in E; contradiction.
Qed.

Lemma occurs_dec (c : ascii) (s : string) : {occurs c s} + {~ occurs c s}.
Proof. unfold occurs. apply in_dec, Ascii.ascii_dec. Qed.

(** X1. The address put in a record never holds a [':'], whatever the
    source address is; cleaning a cleaned address changes nothing. *)
Theorem clean_ip_has_no_colon (s : string) :
  ~ occurs ":" (clean_ip s) /\ clean_ip (clean_ip s) = clean_ip s.
Proof.
  assert (N : ~ occurs ":" (clean_ip s)).
  { destruct (occurs_dec ":" s) as [H|H].
    - destruct (clean_ip_split s H) as (pre & _ & Hn). exact Hn.
    - now rewrite (clean_ip_no_colon_id s H). }
  split; [exact N | now apply clean_ip_no_colon_id].
Qed.

(** X2. The cleaned address is an end of the source address.  It is the
    source address itself exactly when that holds no [':']; otherwise it
    is strictly shorter, the last colon and all before it being dropped. *)
Theorem clean_ip_is_a_suffix (s : string) :
  (exists pre, s = pre ++ clean_ip s)
  /\ (clean_ip s = s <-> ~ occurs ":" s)
  /\ (occurs ":" s -> String.length (clean_ip s) < String.length s).
Proof.
  assert (Short : occurs ":" s -> String.length (clean_ip s) < String.length s).
  { intros H. destruct (clean_ip_split s H) as (pre & E & _).
    rewrite E at 2. rewrite append_length. simpl. lia. }
  split; [|split; [split|exact Short]].
  - destruct (occurs_dec ":" s) as [H|H].
    + destruct (clean_ip_split s H) as (pre & E & _).
      exists (pre ++ ":"). rewrite append_assoc_s. exact E.
    + exists "". now rewrite (clean_ip_no_colon_id s H).
  - intros E H. apply Short in H. rewrite E in H. lia.
  - apply clean_ip_no_colon_id.
Qed.

Lemma ip_ignored_entries (cfg : _Config) (lf : Eventinfo) :
  ip_ignored cfg lf = true <-> In (lf_srcip lf) (ignore_entries cfg).
Proof.
  unfold ip_ignored, ignore_entries.
  destruct (ar_ignore cfg) as [entries|]; simpl.
  - destruct (ignore_walk entries (lf_srcip lf)) eqn:E.
    + split; [intros _ | reflexivity].
      destruct (in_dec string_dec (lf_srcip lf) entries) as [I|NI]; [exact I|].
      apply ignore_walk_None_iff in NI. rewrite NI in E. discriminate E.
    + apply ignore_walk_None_iff in E. split; [discriminate | contradiction].
  - split; [discriminate | contradiction].
Qed.

Lemma field_split_inj (a a' r r' : string) :
  ~ occurs " " a -> ~ occurs " " a' ->
  a ++ String " " r = a' ++ String " " r' ->
  a = a' /\ r = r'.
Proof.
  revert a'; induction a as [|c a IH]; intros [|c' a'] Ha Ha' E; simpl in E.
  - injection E as E; auto.
  - injection E as Ec _. exfalso; apply Ha'. apply occurs_cons; left; congruence.
  - injection E as Ec _. exfalso; apply Ha. apply occurs_cons; left; congruence.
  - injection E as -> E.
    destruct (IH a') as [-> ->]; auto.
    + intros H; apply Ha; apply occurs_cons; now right.
    + intros H; apply Ha'; apply occurs_cons; now right.
Qed.

Section Further.

Set Default Proof Using "Type".

Variable AS_ONLY : Z.
Variable REMOTE_AGENT : Z.
Variable OS_MAXSTR : nat.
Variable ARGV0 : string.
Variable transport : Z -> string -> Z.
Variable exec_msg0 : string.
Variable Config : _Config.

Local Abbreviation run :=
  (OS_Exec AS_ONLY REMOTE_AGENT OS_MAXSTR ARGV0 transport exec_msg0 Config).
Local Abbreviation is_local := (isLocalExecution AS_ONLY REMOTE_AGENT).
Local Abbreviation local_msg lf ar :=
  (snprintf exec_msg0 OS_MAXSTR (local_format lf ar (clean_ip (lf_srcip lf)))).
Local Abbreviation forward_msg lf ar :=
  (snprintf exec_msg0 OS_MAXSTR (forward_format lf ar (clean_ip (lf_srcip lf)))).
Local Abbreviation execd_line := (ARGV0 ++ ": Error communicating with execd").
Local Abbreviation arq_line := (ARGV0 ++ ": Error communicating with arq").

(** What a run from the empty trace leaves, case by case. *)
Lemma run_effects execq arq lf ar :
  (ip_ignored Config lf = true /\ snd (run execq arq lf ar []) = [])
  \/ (ip_ignored Config lf = false /\ is_local lf ar /\ local_ar Config = 0%Z
      /\ snd (run execq arq lf ar []) = [])
  \/ (ip_ignored Config lf = false /\ ~ is_local lf ar /\ remote_ar Config = 0%Z
      /\ snd (run execq arq lf ar []) = [])
  \/ (ip_ignored Config lf = false /\ is_local lf ar /\ local_ar Config <> 0%Z
      /\ snd (run execq arq lf ar [])
         = Sent execq (local_msg lf ar)
             :: failure_log (transport execq (local_msg lf ar)) execd_line)
  \/ (ip_ignored Config lf = false /\ ~ is_local lf ar /\ remote_ar Config <> 0%Z
      /\ snd (run execq arq lf ar [])
         = Sent arq (forward_msg lf ar)
             :: failure_log (transport arq (forward_msg lf ar)) arq_line).
Proof.
  destruct (ip_ignored Config lf) eqn:I.
  - left. split; [reflexivity|]. now rewrite OS_Exec_ignored.
  - right.
    destruct (on_server AS_ONLY REMOTE_AGENT lf ar) eqn:L.
    + apply on_server_iff in L. rewrite (OS_Exec_local _ _ _ _ _ _ _ _ _ _ _ _ I L).
      destruct (Z.eq_dec (local_ar Config) 0) as [E|N].
      * left. rewrite (local_response_off _ _ _ _ _ _ _ _ _ _ E). auto.
      * right; right; left. rewrite (local_response_on _ _ _ _ _ _ _ _ _ _ N). auto.
    + apply on_server_false_iff in L.
      rewrite (OS_Exec_forward _ _ _ _ _ _ _ _ _ _ _ _ I L).
      destruct (Z.eq_dec (remote_ar Config) 0) as [E|N].
      * right; left. rewrite (forward_response_off _ _ _ _ _ _ _ _ _ _ E). auto.
      * right; right; right. rewrite (forward_response_on _ _ _ _ _ _ _ _ _ _ N). auto.
Qed.

(** X3. With both responses enabled, a run writes no record exactly when
    the source address as received is string-equal to an entry of the
    ignore array.  The cleaned address plays no part: an event whose
    cleaned address is listed, but whose source address is not, is
    answered. *)
Theorem suppressed_iff_raw_address_listed execq arq lf ar :
  local_ar Config <> 0%Z ->
  remote_ar Config <> 0%Z ->
  (filter is_sent (snd (run execq arq lf ar [])) = []
   <-> In (lf_srcip lf) (ignore_entries Config)).
Proof.
  intros EL ER. rewrite <- ip_ignored_entries.
  destruct (run_effects execq arq lf ar)
    as [(I & ->)|[(I & _ & E & _)|[(I & _ & E & _)|[(I & _ & _ & ->)|(I & _ & _ & ->)]]]];
    try contradiction; rewrite I; simpl; split; try reflexivity; discriminate.
Qed.

(** X4. An error line is logged only right after a write that returned a
    negative value, and then it is the only line: the line of execd after
    a write on [execq], the line of arq after a write on [arq].  A run
    that wrote nothing logs nothing. *)
Theorem error_logged_only_after_failed_write execq arq lf ar line :
  In (Logged line) (snd (run execq arq lf ar [])) ->
  exists sock msg,
    snd (run execq arq lf ar []) = [Sent sock msg; Logged line]
    /\ (transport sock msg < 0)%Z
    /\ ((sock = execq /\ line = execd_line) \/ (sock = arq /\ line = arq_line)).
Proof.
  intros H.
  destruct (run_effects execq arq lf ar)
    as [(_ & E)|[(_ & _ & _ & E)|[(_ & _ & _ & E)|[(_ & _ & _ & E)|(_ & _ & _ & E)]]]];
    rewrite E in H |- *; simpl in H; try contradiction;
    destruct H as [H|H]; try discriminate H; unfold failure_log in *.
  - destruct (Z.ltb_spec (transport execq (local_msg lf ar)) 0) as [Neg|Pos];
      simpl in H; [|contradiction].
    destruct H as [[= <-]|[]]. eexists _, _; split; [reflexivity|]. split; auto.
  - destruct (Z.ltb_spec (transport arq (forward_msg lf ar)) 0) as [Neg|Pos];
      simpl in H; [|contradiction].
    destruct H as [[= <-]|[]]. eexists _, _; split; [reflexivity|]. split; auto.
Qed.

(** X5. In three cases the queue follows from one look: a rule whose
    location is [AS_ONLY] is answered on [execq] whatever the location of
    the event; a rule whose location is neither [AS_ONLY] nor
    [REMOTE_AGENT] is answered on [arq] whatever the location of the
    event; and an event whose location holds a ['>'] is answered on [arq]
    by every rule that is not [AS_ONLY]. *)
Theorem queue_by_rule_location execq arq lf ar sock msg :
  In (Sent sock msg) (snd (run execq arq lf ar [])) ->
  (ar_location ar = AS_ONLY -> sock = execq)
  /\ (ar_location ar <> AS_ONLY -> ar_location ar <> REMOTE_AGENT -> sock = arq)
  /\ (ar_location ar <> AS_ONLY -> occurs ">" (lf_location lf) -> sock = arq).
Proof.
  intros H.
  destruct (sent_of_run _ _ _ _ _ _ _ _ _ _ _ _ _ H)
    as [_ [(L & _ & -> & _)|(L & _ & -> & _)]].
  - split; [auto|]. split.
    + intros NA NR. destruct L as [L|[L _]]; contradiction.
    + intros NA G. destruct L as [L|[_ L]]; contradiction.
  - split; [|auto]. intros A. exfalso; apply L; now left.
Qed.


End Further.

(** X7. Only the set of entries of the ignore array matters: two
    configurations with the same flags whose arrays hold the same
    addresses, in any order and with any repetitions, a [NULL] array
    counting as an empty one, give the same run. *)
Theorem ignore_array_counts_as_a_set (AS_ONLY REMOTE_AGENT : Z)
    (OS_MAXSTR : nat) (ARGV0 : string) (transport : Z -> string -> Z)
    (exec_msg0 : string) (cfg1 cfg2 : _Config) execq arq lf ar t :
  (forall s, In s (ignore_entries cfg1) <-> In s (ignore_entries cfg2)) ->
  local_ar cfg1 = local_ar cfg2 ->
  remote_ar cfg1 = remote_ar cfg2 ->
  OS_Exec AS_ONLY REMOTE_AGENT OS_MAXSTR ARGV0 transport exec_msg0 cfg1
    execq arq lf ar t
  = OS_Exec AS_ONLY REMOTE_AGENT OS_MAXSTR ARGV0 transport exec_msg0 cfg2
      execq arq lf ar t.
Proof.
  intros Same EL ER.
  assert (I : ip_ignored cfg1 lf = ip_ignored cfg2 lf).
  { pose proof (ip_ignored_entries cfg1 lf) as H1.
    pose proof (ip_ignored_entries cfg2 lf) as H2.
    pose proof (Same (lf_srcip lf)) as S.
    destruct (ip_ignored cfg1 lf), (ip_ignored cfg2 lf); try reflexivity.
    - symmetry. apply H2, S, H1. reflexivity.
    - apply H1, S, H2. reflexivity. }
  unfold OS_Exec, local_response, forward_response.
  now rewrite I, EL, ER.
Qed.

(** X8. The text of a local record determines its three fields when the
    rule name and the user hold no space: two such texts are equal only
    if name, user and address are. *)
Theorem local_format_injective lf ar ip lf' ar' ip' :
  ~ occurs " " (ar_name ar) -> ~ occurs " " (lf_user lf) ->
  ~ occurs " " (ar_name ar') -> ~ occurs " " (lf_user lf') ->
  local_format lf ar ip = local_format lf' ar' ip' ->
  ar_name ar = ar_name ar' /\ lf_user lf = lf_user lf' /\ ip = ip'.
Proof.
  intros N U N' U' E. unfold local_format in E. simpl in E.
  apply field_split_inj in E; [|assumption..]. destruct E as [En E].
  apply field_split_inj in E; [|assumption..]. destruct E as [Eu E].
  auto.
Qed.

Lemma conv_c_space_free (i : Z) :
  (i mod 256 <> 32)%Z -> ~ occurs " " (conv_c i).
Proof.
  intros H O. unfold conv_c in O. apply occurs_cons in O.
  destruct O as [O|O]; [|now apply occurs_empty in O].
  apply H. apply (f_equal N_of_ascii) in O.
  rewrite N_ascii_embedding in O.
  - simpl in O. lia.
  - assert (0 <= i mod 256 < 256)%Z by (apply Z.mod_pos_bound; lia). lia.
Qed.

(** X9. The text of a forwarded record determines its six fields when the
    event location, the agent id, the rule name and the user hold no
    space and the character of the location code is neither NUL nor the
    space: two such texts are equal only if all six fields are. *)
Theorem forward_format_injective lf ar ip lf' ar' ip' :
  ~ occurs " " (lf_location lf) -> ~ occurs " " (lf_location lf') ->
  (ar_location ar mod 256 <> 0)%Z -> (ar_location ar' mod 256 <> 0)%Z ->
  (ar_location ar mod 256 <> 32)%Z -> (ar_location ar' mod 256 <> 32)%Z ->
  ~ occurs " " (ar_agent_id ar) -> ~ occurs " " (ar_agent_id ar') ->
  ~ occurs " " (ar_name ar) -> ~ occurs " " (ar_name ar') ->
  ~ occurs " " (lf_user lf) -> ~ occurs " " (lf_user lf') ->
  forward_format lf ar ip = forward_format lf' ar' ip' ->
  lf_location lf = lf_location lf'
  /\ conv_c (ar_location ar) = conv_c (ar_location ar')
  /\ ar_agent_id ar = ar_agent_id ar'
  /\ ar_name ar = ar_name ar'
  /\ lf_user lf = lf_user lf'
  /\ ip = ip'.
Proof.
  intros L L' Z0 Z0' C C' A A' N N' U U' E.
  apply conv_c_space_free in C, C'.
  rewrite (forward_format_six _ _ _ Z0), (forward_format_six _ _ _ Z0') in E.
  unfold six_fields in E.
  change (lf_location lf ++ String " " (conv_c (ar_location ar) ++ String " "
            (ar_agent_id ar ++ String " " (ar_name ar ++ String " "
               (lf_user lf ++ String " " ip))))
          = lf_location lf' ++ String " " (conv_c (ar_location ar') ++ String " "
              (ar_agent_id ar' ++ String " " (ar_name ar' ++ String " "
                 (lf_user lf' ++ String " " ip'))))) in E.
  apply field_split_inj in E; [|assumption..]. destruct E as [E1 E].
  apply field_split_inj in E; [|assumption..]. destruct E as [E2 E].
  apply field_split_inj in E; [|assumption..]. destruct E as [E3 E].
  apply field_split_inj in E; [|assumption..]. destruct E as [E4 E].
  apply field_split_inj in E; [|assumption..]. destruct E as [E5 E].
  auto 7.
Qed.

(** X10. A space inside the user cannot be told from the separator: an
    event of user [u v] from address [i] and an event of user [u] from
    address [v i], at the same location and both let through by the
    ignore list, give the same run, record for record. *)
Theorem space_in_user_shifts_the_fields (AS_ONLY REMOTE_AGENT : Z)
    (OS_MAXSTR : nat) (ARGV0 : string) (transport : Z -> string -> Z)
    (exec_msg0 : string) (Config : _Config) execq arq lf1 lf2 ar u v i t :
  lf_location lf1 = lf_location lf2 ->
  lf_user lf1 = u ++ " " ++ v -> lf_srcip lf1 = i ->
  lf_user lf2 = u -> lf_srcip lf2 = v ++ " " ++ i ->
  ~ occurs ":" v -> ~ occurs ":" i ->
  ip_ignored Config lf1 = false -> ip_ignored Config lf2 = false ->
  OS_Exec AS_ONLY REMOTE_AGENT OS_MAXSTR ARGV0 transport exec_msg0 Config
    execq arq lf1 ar t
  = OS_Exec AS_ONLY REMOTE_AGENT OS_MAXSTR ARGV0 transport exec_msg0 Config
      execq arq lf2 ar t.
Proof.
  intros EL U1 S1 U2 S2 Nv Ni I1 I2.
  assert (C1 : clean_ip (lf_srcip lf1) = i)
    by (rewrite S1; now apply clean_ip_no_colon_id).
  assert (C2 : clean_ip (lf_srcip lf2) = v ++ " " ++ i).
  { rewrite S2. apply clean_ip_no_colon_id.
    intros O. apply occurs_append in O. destruct O as [O|O]; [now apply Nv|].
    apply occurs_append in O. destruct O as [O|O]; [|now apply Ni].
    apply occurs_cons in O. destruct O as [O|O]; [discriminate O|].
    now apply occurs_empty in O. }
  assert (F : forward_format lf1 ar i = forward_format lf2 ar (v ++ " " ++ i)).
  { unfold forward_format, conv_c_then. rewrite EL, U1, U2.
    destruct (ar_location ar mod 256 =? 0)%Z; [reflexivity|].
    now rewrite !append_assoc_s. }
  assert (G : local_format lf1 ar i = local_format lf2 ar (v ++ " " ++ i)).
  { unfold local_format. rewrite U1, U2. now rewrite !append_assoc_s. }
  unfold OS_Exec. rewrite I1, I2, C1, C2.
  unfold on_server, local_response, forward_response.
  rewrite EL, F, G. reflexivity.
Qed.

(** ** The further properties on concrete inputs *)

Lemma clean_ip_is_a_suffix_witness :
  occurs ":" "::ffff:10.0.0.5"
  /\ String.length (clean_ip "::ffff:10.0.0.5") < String.length "::ffff:10.0.0.5".
Proof.
  assert (O : occurs ":" "::ffff:10.0.0.5") by (left; reflexivity).
  split; [exact O|].
  destruct (clean_ip_is_a_suffix "::ffff:10.0.0.5") as (_ & _ & K).
  exact (K O).
Defined.

Lemma suppressed_iff_raw_address_listed_witness :
  In (clean_ip (lf_srcip Sample.lf_server)) ["10.0.0.5"]
  /\ filter is_sent
       (snd (Sample.run Sample.maxstr (always 0) (mk_Config (Some ["10.0.0.5"]) 1 1)
               Sample.lf_server Sample.ar_server []))
     <> [].
Proof.
  split; [left; reflexivity|].
  intros E.
  apply (suppressed_iff_raw_address_listed Sample.as_only Sample.remote_agent
           Sample.maxstr Sample.argv0 (always 0) ""
           (mk_Config (Some ["10.0.0.5"]) 1 1) Sample.execq Sample.arq
           Sample.lf_server Sample.ar_server) in E.
  - destruct E as [E|[]]. discriminate E.
  - discriminate.
  - discriminate.
Defined.

Lemma error_logged_only_after_failed_write_witness :
  exists sock msg,
    snd (Sample.run Sample.maxstr (always (-1)) Sample.config Sample.lf_agent
           Sample.ar_block [])
    = [Sent sock msg; Logged "ossec-analysisd: Error communicating with arq"].
Proof.
  destruct (error_logged_only_after_failed_write Sample.as_only
              Sample.remote_agent Sample.maxstr Sample.argv0 (always (-1)) ""
              Sample.config Sample.execq Sample.arq Sample.lf_agent
              Sample.ar_block "ossec-analysisd: Error communicating with arq")
    as (sock & msg & E & _).
  - right; left; reflexivity.
  - exists sock, msg. exact E.
Defined.

Lemma queue_by_rule_location_witness :
  ar_location Sample.ar_nul <> Sample.as_only
  /\ ar_location Sample.ar_nul <> Sample.remote_agent
  /\ In (Sent Sample.arq "/var/log/secure ")
        (snd (Sample.run Sample.maxstr (always 0) Sample.config Sample.lf_plain
                Sample.ar_nul []))
  /\ Sample.arq = Sample.arq.
Proof.
  assert (NA : ar_location Sample.ar_nul <> Sample.as_only) by discriminate.
  assert (NR : ar_location Sample.ar_nul <> Sample.remote_agent) by discriminate.
  assert (I : In (Sent Sample.arq "/var/log/secure ")
                (snd (Sample.run Sample.maxstr (always 0) Sample.config
                        Sample.lf_plain Sample.ar_nul [])))
    by (left; reflexivity).
  split; [exact NA|]. split; [exact NR|]. split; [exact I|].
  destruct (queue_by_rule_location Sample.as_only Sample.remote_agent
              Sample.maxstr Sample.argv0 (always 0) "" Sample.config
              Sample.execq Sample.arq Sample.lf_plain Sample.ar_nul
              Sample.arq "/var/log/secure " I)
    as (_ & K & _).
  exact (K NA NR).
Defined.


Lemma ignore_array_counts_as_a_set_witness :
  Sample.run Sample.maxstr (always 0)
    (mk_Config (Some ["192.168.2.1"; "127.0.0.1"; "192.168.2.1"]) 1 1)
    Sample.lf_ignored Sample.ar_server []
  = Sample.run Sample.maxstr (always 0) Sample.config Sample.lf_ignored
      Sample.ar_server [].
Proof.
  apply (ignore_array_counts_as_a_set Sample.as_only Sample.remote_agent
           Sample.maxstr Sample.argv0 (always 0) ""
           (mk_Config (Some ["192.168.2.1"; "127.0.0.1"; "192.168.2.1"]) 1 1)
           Sample.config).
  - intros s; simpl; tauto.
  - reflexivity.
  - reflexivity.
Defined.

Lemma local_format_injective_witness :
  ~ occurs " " "block-ip" /\ ~ occurs " " "root"
  /\ ar_name Sample.ar_server = ar_name Sample.ar_block
  /\ lf_user Sample.lf_server = lf_user Sample.lf_colon
  /\ "10.0.0.5" = "10.0.0.5".
Proof.
  assert (N : ~ occurs " " "block-ip") by (apply index_None_iff; reflexivity).
  assert (U : ~ occurs " " "root") by (apply index_None_iff; reflexivity).
  split; [exact N|]. split; [exact U|].
  exact (local_format_injective Sample.lf_server Sample.ar_server "10.0.0.5"
           Sample.lf_colon Sample.ar_block "10.0.0.5" N U N U eq_refl).
Defined.

Lemma forward_format_injective_witness :
  (ar_location Sample.ar_block mod 256 <> 32)%Z
  /\ lf_location (mkEventinfo "10.0.0.5" "agent01->/var/log/secure" "root")
     = lf_location (mkEventinfo "10.0.0.6" "agent01->/var/log/secure" "root")
  /\ conv_c (ar_location Sample.ar_block) = conv_c (ar_location Sample.ar_block)
  /\ ar_agent_id Sample.ar_block = ar_agent_id Sample.ar_block
  /\ ar_name Sample.ar_block = ar_name Sample.ar_block
  /\ "root" = "root"
  /\ "10.0.0.5" = "10.0.0.5".
Proof.
  assert (C : (ar_location Sample.ar_block mod 256 <> 32)%Z) by discriminate.
  assert (Z0 : (ar_location Sample.ar_block mod 256 <> 0)%Z) by discriminate.
  assert (L : ~ occurs " " "agent01->/var/log/secure")
    by (apply index_None_iff; reflexivity).
  assert (A : ~ occurs " " "007") by (apply index_None_iff; reflexivity).
  assert (N : ~ occurs " " "block-ip") by (apply index_None_iff; reflexivity).
  assert (U : ~ occurs " " "root") by (apply index_None_iff; reflexivity).
  split; [exact C|].
  exact (forward_format_injective
           (mkEventinfo "10.0.0.5" "agent01->/var/log/secure" "root")
           Sample.ar_block "10.0.0.5"
           (mkEventinfo "10.0.0.6" "agent01->/var/log/secure" "root")
           Sample.ar_block "10.0.0.5" L L Z0 Z0 C C A A N N U U eq_refl).
Defined.

Lemma space_in_user_shifts_the_fields_witness :
  Sample.run Sample.maxstr (always 0) Sample.config
    (mkEventinfo "10.0.0.5" "/var/log/secure" "root x") Sample.ar_server []
  = Sample.run Sample.maxstr (always 0) Sample.config
      (mkEventinfo "x 10.0.0.5" "/var/log/secure" "root") Sample.ar_server [].
Proof.
  apply (space_in_user_shifts_the_fields Sample.as_only Sample.remote_agent
           Sample.maxstr Sample.argv0 (always 0) "" Sample.config Sample.execq
           Sample.arq (mkEventinfo "10.0.0.5" "/var/log/secure" "root x")
           (mkEventinfo "x 10.0.0.5" "/var/log/secure" "root") Sample.ar_server
           "root" "x" "10.0.0.5" []);
    try reflexivity; apply index_None_iff; reflexivity.
Defined.

